(** * Challenge15: the "recommend portfolio" Lex handler

    A shallow embedding of [Challenge15_Completed_Lambda_Function.py] and the
    properties of its validator and dialog controller.

    Modelling decisions.
    - A Python [str] is a [string] whose characters are read as the code
      points 0..255; whitespace, decimal digits and letter case are Python's
      on that range.  Code points from 256 on are outside the model.
      [int] refuses a text of more than 4300 digits, as the interpreter does
      with its default setting.
    - A value that is a [str] or [None] is an [option string]: slot values,
      and dictionary keys (the handler indexes the slot mapping with the
      violated slot of a verdict, which is [None] in a valid verdict).
    - Python [int] is [Z]; the result of [parse_int] is an [int] or the float
      [nan], whose ordered comparisons are all false.
    - Dictionaries that the handler shares with its caller (the slot mapping
      and the session attributes) live in a store and are passed by
      reference, so that the in-place update of the slot mapping is visible
      through every alias.
    - Exceptions are values of [exn]; a computation that raises keeps the
      store it had reached. *)

From Stdlib Require Import ZArith Ascii String.
From stdpp Require Import base option strings functions gmap.

Local Open Scope string_scope.
Local Open Scope Z_scope.

(** ** Python strings *)

Module PyStr.

Definition code (c : ascii) : Z := Z.of_nat (nat_of_ascii c).

(** The whitespace that [int] skips: TAB..CR and the blank, and the two
    spaces above 127, NEL and the no-break space. *)
Definition is_space (c : ascii) : bool :=
  ((9 <=? code c) && (code c <=? 13)) || (code c =? 32)
  || (code c =? 133) || (code c =? 160).

Definition is_digit (c : ascii) : bool :=
  (48 <=? code c) && (code c <=? 57).

Definition digit_val (c : ascii) : Z := code c - 48.

(** The characters that [lower] changes: A..Z, and the accented capitals
    192..222 but for the multiplication sign 215.  Each has its lower-case
    form 32 places further. *)
Definition is_upper (c : ascii) : bool :=
  ((65 <=? code c) && (code c <=? 90))
  || ((192 <=? code c) && (code c <=? 214))
  || ((216 <=? code c) && (code c <=? 222)).

Definition lower_char (c : ascii) : ascii :=
  if is_upper c then ascii_of_nat (nat_of_ascii c + 32) else c.

(** [s.lower()] *)
Fixpoint lower (s : string) : string :=
  match s with
  | EmptyString => EmptyString
  | String c s' => String (lower_char c) (lower s')
  end.

Fixpoint skip_space (s : string) : string :=
  match s with
  | String c s' => if is_space c then skip_space s' else s
  | EmptyString => EmptyString
  end.

(** The digit loop of [int(s)] in base 10: digits, with single underscores
    allowed between them.  [prev_us] tells that the previous character was
    an underscore.  Returns the value read and the rest of the input. *)
Fixpoint scan_digits (prev_us : bool) (acc : Z) (s : string)
  : option (Z * string) :=
  match s with
  | String c s' =>
      if is_digit c then scan_digits false (10 * acc + digit_val c) s'
      else if Ascii.eqb c "_"
           then (if prev_us then None else scan_digits true acc s')
           else (if prev_us then None else Some (acc, s))
  | EmptyString => if prev_us then None else Some (acc, EmptyString)
  end.

(** The digits that the loop counts: those of the leading run of digits and
    underscores. *)
Fixpoint count_digits (s : string) : Z :=
  match s with
  | String c s' =>
      if is_digit c then 1 + count_digits s'
      else if Ascii.eqb c "_" then count_digits s'
      else 0
  | EmptyString => 0
  end.

(** [sys.int_info.default_max_str_digits] *)
Definition max_str_digits : Z := 4300.

Definition read_sign (s : string) : bool * string :=
  match s with
  | String "+" r => (false, r)
  | String "-" r => (true, r)
  | _ => (false, s)
  end.

(** [int(s)] for a string [s]: [None] stands for [ValueError], which is
    raised for a text that is not an integer literal and for one with more
    than [max_str_digits] digits. *)
Definition int_of_str (s : string) : option Z :=
  let '(neg, body) := read_sign (skip_space s) in
  match body with
  | EmptyString => None
  | String c _ =>
      if is_digit c then
        match scan_digits false 0 body with
        | Some (n, rest) =>
            if max_str_digits <? count_digits body then None
            else
              match skip_space rest with
              | EmptyString => Some (if neg then - n else n)
              | String _ _ => None
              end
        | None => None
        end
      else None
  end.

End PyStr.

(** ** Exceptions and numbers *)

Inductive exn : Type :=
| ValueError
| KeyError (key : option string)
| AttributeError (msg : string)
| Exception (msg : string).

(** What [parse_int] returns: an [int] or the float [nan]. *)
Inductive num : Type :=
| Int (z : Z)
| NaN.

Definition num_le (a : num) (b : Z) : bool :=
  match a with Int z => z <=? b | NaN => false end.
Definition num_ge (a : num) (b : Z) : bool :=
  match a with Int z => b <=? z | NaN => false end.
Definition num_lt (a : num) (b : Z) : bool :=
  match a with Int z => z <? b | NaN => false end.

(** [int(n)] raising [ValueError]. *)
Definition py_int (n : string) : exn + Z :=
  match PyStr.int_of_str n with
  | Some z => inr z
  | None => inl ValueError
  end.

(** [try: return int(n) / except ValueError: return float("nan")]; on a
    string [int] raises nothing else (lemma [py_int_raises]). *)
Definition parse_int (n : string) : num :=
  match py_int n with
  | inr z => Int z
  | inl _ => NaN
  end.

(** ** Validation *)

Record Message : Type := mkMessage { contentType : string; content : string }.

(** The dictionary built by [build_validation_result]; [message = None] is
    the dictionary without the ["message"] key. *)
Record ValidationResult : Type := mkValidationResult {
  isValid : bool;
  violatedSlot : option string;
  message : option Message
}.

Definition build_validation_result
    (is_valid : bool) (violated_slot : option string)
    (message_content : option string) : ValidationResult :=
  match message_content with
  | None => mkValidationResult is_valid violated_slot None
  | Some text =>
      mkValidationResult is_valid violated_slot
        (Some (mkMessage "PlainText" text))
  end.

Definition age_message : string :=
  "Your age should be greater than zero and less than 65. "
  +:+ "Please provide a valid age.".
Definition investment_message : string :=
  "The minimum investment amount is $5000. "
  +:+ "Please provide a valid investment amount.".
Definition risk_message : string :=
  "Your risk level should be one of the following options: none, low, medium, high. "
  +:+ "Please provide a valid risk level.".

(** ** The request, the response and the store *)

(** References to the dictionaries shared with the caller. *)
Abbreviation loc := positive (only parsing).
Abbreviation dict := (gmap (option string) (option string)) (only parsing).
Abbreviation store := (loc → dict) (only parsing).

Record Intent : Type := mkIntent { name : string; slots : loc }.

Record IntentRequest : Type := mkIntentRequest {
  invocationSource : string;
  currentIntent : Intent;
  sessionAttributes : loc
}.

(** The three shapes of ["dialogAction"], told apart by their ["type"]. *)
Inductive DialogAction : Type :=
| ElicitSlot (intentName : string) (slots : loc)
             (slotToElicit : option string) (message : Message)
| Delegate (slots : loc)
| Close (fulfillmentState : string) (message : Message).

Record Response : Type := mkResponse {
  response_sessionAttributes : loc;
  dialogAction : DialogAction
}.

(** Computations over the store that may raise. *)
Definition M (A : Type) : Type := store → (exn + A) * store.

#[global] Instance M_ret : MRet M := λ A a σ, (inr a, σ).
#[global] Instance M_bind : MBind M := λ A B k m σ,
  match m σ with
  | (inr a, σ') => k a σ'
  | (inl e, σ') => (inl e, σ')
  end.

Definition raise {A : Type} (e : exn) : M A := λ σ, (inl e, σ).

Definition lift {A : Type} (r : exn + A) : M A := λ σ, (r, σ).

(** [d[k]] *)
Definition getitem (d : loc) (k : option string) : M (option string) := λ σ,
  match σ d !! k with
  | Some v => (inr v, σ)
  | None => (inl (KeyError k), σ)
  end.

(** [d[k] = v] *)
Definition setitem (d : loc) (k v : option string) : M unit :=
  λ σ, (inr tt, <[d := <[k := v]> (σ d)]> σ).

(** ** Validation *)

Definition risk_levels : list string := ["none"; "low"; "medium"; "high"].

Definition validate_data
    (age investment_amount risk_level : option string)
    (intent_request : IntentRequest) : ValidationResult :=
  (* Validate age input *)
  if match age with
     | Some a =>
         let age := parse_int a in
         num_le age 0 || num_ge age 65
     | None => false
     end
  then build_validation_result false (Some "age") (Some age_message)
  else
  (* Validate investment amount input *)
  if match investment_amount with
     | Some i =>
         let investment_amount := parse_int i in
         num_lt investment_amount 5000
     | None => false
     end
  then build_validation_result false (Some "investmentAmount")
         (Some investment_message)
  else
  (* Validate risk level input *)
  if match risk_level with
     | Some r => negb (bool_decide (PyStr.lower r ∈ risk_levels))
     | None => false
     end
  then build_validation_result false (Some "riskLevel") (Some risk_message)
  else build_validation_result true None None.

(** [validation_result["message"]] *)
Definition result_message (validation_result : ValidationResult)
  : exn + Message :=
  match message validation_result with
  | Some msg => inr msg
  | None => inl (KeyError (Some "message"))
  end.

(** ** Dialog actions *)

Definition get_slots (intent_request : IntentRequest) : loc :=
  slots (currentIntent intent_request).

Definition elicit_slot (session_attributes : loc) (intent_name : string)
    (slots : loc) (slot_to_elicit : option string) (message : Message)
  : Response :=
  mkResponse session_attributes
    (ElicitSlot intent_name slots slot_to_elicit message).

Definition delegate (session_attributes : loc) (slots : loc) : Response :=
  mkResponse session_attributes (Delegate slots).

Definition close (session_attributes : loc) (fulfillment_state : string)
    (message : Message) : Response :=
  mkResponse session_attributes (Close fulfillment_state message).

(** ** Recommendation *)

Definition get_rec (risk_level : option string) : exn + string :=
  match risk_level with
  | None => inl (AttributeError "'NoneType' object has no attribute 'lower'")
  | Some r =>
      inr (if bool_decide (PyStr.lower r = "none")
           then "100% bonds (AGG), 0% equities (SPY)"
           else if bool_decide (PyStr.lower r = "low")
           then "60% bonds (AGG), 40% equities (SPY)"
           else if bool_decide (PyStr.lower r = "medium")
           then "40% bonds (AGG), 60% equities (SPY)"
           else if bool_decide (PyStr.lower r = "high")
           then "20% bonds (AGG), 80% equities (SPY)"
           else "Invalid Risk Level")
  end.

(** How [str.format] renders a slot value in a [{}] field. *)
Definition format_value (v : option string) : string :=
  match v with
  | Some s => s
  | None => "None"
  end.

Definition closing_content (first_name : option string)
    (portfolio_recommendation : string) : string :=
  "Thank you, " +:+ format_value first_name
  +:+ ", you should allocate your funds like so: "
  +:+ portfolio_recommendation.

(** ** Intent handler and dispatcher *)

Definition recommend_portfolio (intent_request : IntentRequest) : M Response :=
  first_name ← getitem (get_slots intent_request) (Some "firstName");
  age ← getitem (get_slots intent_request) (Some "age");
  investment_amount ←
    getitem (get_slots intent_request) (Some "investmentAmount");
  risk_level ← getitem (get_slots intent_request) (Some "riskLevel");
  let source := invocationSource intent_request in
  if bool_decide (source = "DialogCodeHook") then
    let slots := get_slots intent_request in
    let validation_result :=
      validate_data age investment_amount risk_level intent_request in
    if negb (isValid validation_result) then
      (* Clear invalid slot *)
      _ ← setitem slots (violatedSlot validation_result) None;
      msg ← lift (result_message validation_result);
      mret (elicit_slot
              (sessionAttributes intent_request)
              (name (currentIntent intent_request))
              slots
              (violatedSlot validation_result)
              msg)
    else
      let output_session_attributes := sessionAttributes intent_request in
      mret (delegate output_session_attributes (get_slots intent_request))
  else
    portfolio_recommendation ← lift (get_rec risk_level);
    mret (close
            (sessionAttributes intent_request)
            "Fulfilled"
            (mkMessage "PlainText"
               (closing_content first_name portfolio_recommendation))).

Definition dispatch (intent_request : IntentRequest) : M Response :=
  let intent_name := name (currentIntent intent_request) in
  if bool_decide (intent_name = "recommendPortfolio")
  then recommend_portfolio intent_request
  else raise (Exception ("Intent with name " +:+ intent_name
                         +:+ " not supported")).

Definition lambda_handler {Context : Type}
    (event : IntentRequest) (context : Context) : M Response :=
  dispatch event.

(** ** Notions used to state the properties *)

(** Case-insensitive equality of two characters, without [lower]: the same
    character, or an upper-case letter and its lower-case form. *)
Definition same_letter (c d : ascii) : bool :=
  Ascii.eqb c d
  || (PyStr.is_upper c && (PyStr.code d =? PyStr.code c + 32))
  || (PyStr.is_upper d && (PyStr.code c =? PyStr.code d + 32)).

Fixpoint eq_ignore_case (s t : string) : bool :=
  match s, t with
  | EmptyString, EmptyString => true
  | String c s', String d t' => same_letter c d && eq_ignore_case s' t'
  | _, _ => false
  end.

(** The three checks of [validate_data], each on its own field. *)
Definition age_fails (age : option string) : bool :=
  match age with
  | Some a => num_le (parse_int a) 0 || num_ge (parse_int a) 65
  | None => false
  end.

Definition investment_fails (investment_amount : option string) : bool :=
  match investment_amount with
  | Some i => num_lt (parse_int i) 5000
  | None => false
  end.

Definition risk_fails (risk_level : option string) : bool :=
  match risk_level with
  | Some r => negb (bool_decide (PyStr.lower r ∈ risk_levels))
  | None => false
  end.

Definition age_verdict : ValidationResult :=
  mkValidationResult false (Some "age")
    (Some (mkMessage "PlainText" age_message)).
Definition investment_verdict : ValidationResult :=
  mkValidationResult false (Some "investmentAmount")
    (Some (mkMessage "PlainText" investment_message)).
Definition risk_verdict : ValidationResult :=
  mkValidationResult false (Some "riskLevel")
    (Some (mkMessage "PlainText" risk_message)).
Definition valid_verdict : ValidationResult :=
  mkValidationResult true None None.

(** The slot mapping holds the four slots the handler reads. *)
Definition has_slots (m : dict)
    (first_name age investment_amount risk_level : option string) : Prop :=
  m !! Some "firstName" = Some first_name
  ∧ m !! Some "age" = Some age
  ∧ m !! Some "investmentAmount" = Some investment_amount
  ∧ m !! Some "riskLevel" = Some risk_level.

(** The handler takes the intermediate branch on this marker alone; every
    other invocation source is a fulfillment turn. *)
Definition intermediate_phase (intent_request : IntentRequest) : Prop :=
  invocationSource intent_request = "DialogCodeHook".
Definition final_phase (intent_request : IntentRequest) : Prop :=
  invocationSource intent_request ≠ "DialogCodeHook".

Definition is_close (r : Response) : bool :=
  match dialogAction r with Close _ _ => true | _ => false end.
Definition is_elicit (r : Response) : bool :=
  match dialogAction r with ElicitSlot _ _ _ _ => true | _ => false end.
Definition is_delegate (r : Response) : bool :=
  match dialogAction r with Delegate _ => true | _ => false end.

(** Sample data: a request whose slot mapping is object 1 and whose session
    attributes are object 2. *)
Definition sample_slots (first_name age investment_amount risk_level
                         : option string) : dict :=
  <[Some "firstName" := first_name]>
    (<[Some "age" := age]>
       (<[Some "investmentAmount" := investment_amount]>
          (<[Some "riskLevel" := risk_level]> ∅))).

Definition sample_store (m : dict) : store :=
  λ l, if decide (l = 1%positive) then m
       else {[Some "locale" := Some "en-US"]}.

Definition sample_request (source intent_name : string) : IntentRequest :=
  mkIntentRequest source (mkIntent intent_name 1%positive) 2%positive.

Fixpoint all_chars (p : ascii → bool) (s : string) : bool :=
  match s with
  | EmptyString => true
  | String c s' => p c && all_chars p s'
  end.

(** The characters an integer literal may be made of. *)
Definition int_char (c : ascii) : bool :=
  PyStr.is_space c || PyStr.is_digit c
  || Ascii.eqb c "_" || Ascii.eqb c "+" || Ascii.eqb c "-".

(** The keys the handler reads, in the order it reads them. *)
Definition slot_names : list string :=
  ["firstName"; "age"; "investmentAmount"; "riskLevel"].

(** How many of the three checks fire on the given slot values. *)
Definition failing_fields (age amt risk : option string) : nat :=
  (if age_fails age then 1 else 0)
  + (if investment_fails amt then 1 else 0)
  + (if risk_fails risk then 1 else 0).

(** The outcome of the [n+1]-th of consecutive invocations on the same
    request, each starting from the store the previous one left. *)
Fixpoint replay (n : nat) (intent_request : IntentRequest) (σ : store)
  : (exn + Response) * store :=
  match n with
  | O => recommend_portfolio intent_request σ
  | S n' => replay n' intent_request (recommend_portfolio intent_request σ).2
  end.

(** What [int] does once the leading whitespace and the sign are read. *)
Definition parse_body (neg : bool) (body : string) : option Z :=
  match body with
  | EmptyString => None
  | String c _ =>
      if PyStr.is_digit c then
        match PyStr.scan_digits false 0 body with
        | Some (n, rest) =>
            if PyStr.max_str_digits <? PyStr.count_digits body then None
            else
              match PyStr.skip_space rest with
              | EmptyString => Some (if neg then - n else n)
              | String _ _ => None
              end
        | None => None
        end
      else None
  end.

(** * Properties *)

(** ** Parsing *)

Example parse_int_ex1 : parse_int " +1_0 " = Int 10. Proof. reflexivity. Qed.
Example parse_int_ex2 : parse_int "-7" = Int (-7). Proof. reflexivity. Qed.
Example parse_int_ex3 : parse_int "1__0" = NaN. Proof. reflexivity. Qed.
Example parse_int_ex4 : parse_int "12a" = NaN. Proof. reflexivity. Qed.
Example parse_int_ex5 : parse_int "" = NaN. Proof. reflexivity. Qed.
Example parse_int_ex6 : parse_int "6.5" = NaN. Proof. reflexivity. Qed.
Example parse_int_ex7 : parse_int "007" = Int 7. Proof. reflexivity. Qed.
Example parse_int_ex8 : parse_int "_1" = NaN. Proof. reflexivity. Qed.
Example parse_int_ex9 : parse_int "1_" = NaN. Proof. reflexivity. Qed.
Example parse_int_ex10 : parse_int "- 1" = NaN. Proof. reflexivity. Qed.

Lemma parse_int_inr n z : py_int n = inr z → parse_int n = Int z.
Proof. unfold parse_int. by intros ->. Qed.

Lemma parse_int_inl n e : py_int n = inl e → parse_int n = NaN.
Proof. unfold parse_int. by intros ->. Qed.

(** [int] raises nothing but [ValueError] on a string. *)
Lemma py_int_raises n e : py_int n = inl e → e = ValueError.
Proof. unfold py_int. destruct (PyStr.int_of_str n); congruence. Qed.

(** [nan] fails every ordered comparison, so it fails neither bound. *)
Lemma nan_compares_false b :
  num_le NaN b = false ∧ num_ge NaN b = false ∧ num_lt NaN b = false.
Proof. done. Qed.

(** ** The checks, field by field *)

Lemma age_fails_iff age :
  age_fails age = true ↔
  ∃ s a, age = Some s ∧ py_int s = inr a ∧ (a ≤ 0 ∨ 65 ≤ a).
Proof.
  unfold age_fails, parse_int. split.
  - destruct age as [s|]; [|done].
    destruct (py_int s) as [e|a] eqn:E; cbn; [done|].
    intros H. exists s, a. repeat split; [done|]. lia.
  - intros (s & a & -> & -> & H). cbn. lia.
Qed.

Lemma investment_fails_iff amt :
  investment_fails amt = true ↔
  ∃ s i, amt = Some s ∧ py_int s = inr i ∧ i < 5000.
Proof.
  unfold investment_fails, parse_int. split.
  - destruct amt as [s|]; [|done].
    destruct (py_int s) as [e|i] eqn:E; cbn; [done|].
    intros H. exists s, i. repeat split; [done|]. lia.
  - intros (s & i & -> & -> & H). cbn. lia.
Qed.

Lemma validate_data_checks age amt risk req :
  validate_data age amt risk req =
  if age_fails age then age_verdict
  else if investment_fails amt then investment_verdict
  else if risk_fails risk then risk_verdict
  else valid_verdict.
Proof. by destruct age, amt, risk. Qed.

(** An invalid result always names a slot and carries a message. *)
Lemma validate_data_invalid_shape age amt risk req :
  isValid (validate_data age amt risk req) = false →
  ∃ f msg,
    violatedSlot (validate_data age amt risk req) = Some f
    ∧ message (validate_data age amt risk req) = Some msg
    ∧ f ∈ ["age"; "investmentAmount"; "riskLevel"].
Proof.
  rewrite validate_data_checks.
  destruct (age_fails age); [|destruct (investment_fails amt);
    [|destruct (risk_fails risk)]]; cbn; intros H; try done;
    eexists _, _; (split; [done|split; [done|set_solver]]).
Qed.

(** ** Letter case *)

(** Case analysis on every integer comparison in sight. *)
Ltac case_cmp :=
  repeat match goal with
    | H : context [(?a <=? ?b)%Z] |- _ => destruct (Z.leb_spec a b)
    | H : context [(?a =? ?b)%Z] |- _ => destruct (Z.eqb_spec a b)
    | |- context [(?a <=? ?b)%Z] => destruct (Z.leb_spec a b)
    | |- context [(?a =? ?b)%Z] => destruct (Z.eqb_spec a b)
    end;
  cbn in *; try done; try lia.

Lemma code_inj c d : PyStr.code c = PyStr.code d → c = d.
Proof.
  unfold PyStr.code. intros H%Nat2Z.inj.
  rewrite <- (ascii_nat_embedding c), <- (ascii_nat_embedding d).
  by rewrite H.
Qed.

Lemma code_range c : 0 ≤ PyStr.code c < 256.
Proof. unfold PyStr.code. pose proof (nat_ascii_bounded c). lia. Qed.

Lemma code_lower_char c :
  PyStr.code (PyStr.lower_char c) =
  if PyStr.is_upper c then PyStr.code c + 32 else PyStr.code c.
Proof.
  unfold PyStr.lower_char.
  destruct (PyStr.is_upper c) eqn:U; [|done].
  pose proof (code_range c) as R.
  unfold PyStr.is_upper in U. unfold PyStr.code in *.
  rewrite nat_ascii_embedding; case_cmp.
Qed.

Lemma same_letter_lower c d :
  same_letter c d = true ↔ PyStr.lower_char c = PyStr.lower_char d.
Proof.
  split.
  - intros H. apply code_inj. rewrite !code_lower_char.
    unfold same_letter in H.
    destruct (Ascii.eqb_spec c d) as [->|_]; [done|].
    unfold PyStr.is_upper in *. case_cmp.
  - intros H%(f_equal PyStr.code). rewrite !code_lower_char in H.
    unfold same_letter.
    destruct (Ascii.eqb_spec c d) as [|N]; [done|].
    assert (PyStr.code c ≠ PyStr.code d) by (intros ?%code_inj; done).
    unfold PyStr.is_upper in *. case_cmp.
Qed.

(** [eq_ignore_case] is equality after [lower], as Python compares. *)
Lemma eq_ignore_case_lower s t :
  eq_ignore_case s t = true ↔ PyStr.lower s = PyStr.lower t.
Proof.
  revert t. induction s as [|c s IH]; intros [|d t]; cbn; try done.
  rewrite andb_true_iff, same_letter_lower, IH.
  split; [by intros [-> ->]|]. by intros [= -> ->].
Qed.

Lemma lower_risk_levels w : w ∈ risk_levels → PyStr.lower w = w.
Proof.
  unfold risk_levels. rewrite !elem_of_cons, elem_of_nil.
  intros [->|[->|[->|[->|[]]]]]; reflexivity.
Qed.

Lemma lower_in_risk_levels r :
  PyStr.lower r ∈ risk_levels ↔
  ∃ w, w ∈ risk_levels ∧ eq_ignore_case r w = true.
Proof.
  split.
  - intros H. exists (PyStr.lower r). split; [done|].
    apply eq_ignore_case_lower. by rewrite (lower_risk_levels _ H).
  - intros (w & Hw & E%eq_ignore_case_lower).
    by rewrite E, (lower_risk_levels _ Hw).
Qed.

Lemma risk_fails_iff risk :
  risk_fails risk = true ↔
  ∃ r, risk = Some r ∧ ∀ w, w ∈ risk_levels → eq_ignore_case r w = false.
Proof.
  unfold risk_fails. split.
  - destruct risk as [r|]; [|done].
    rewrite negb_true_iff, bool_decide_eq_false, lower_in_risk_levels.
    intros H. exists r. split; [done|]. intros w Hw.
    destruct (eq_ignore_case r w) eqn:E; [|done]. destruct H; eauto.
  - intros (r & -> & H).
    rewrite negb_true_iff, bool_decide_eq_false, lower_in_risk_levels.
    intros (w & Hw & E). rewrite (H w Hw) in E. done.
Qed.

Example eq_ignore_case_ex1 : eq_ignore_case "MeDiUm" "medium" = true.
Proof. reflexivity. Qed.
Example eq_ignore_case_ex2 : eq_ignore_case "Nome" "none" = false.
Proof. reflexivity. Qed.
Example eq_ignore_case_ex3 : eq_ignore_case "low " "low" = false.
Proof. reflexivity. Qed.

(** ** The validator *)

(** An age that does not parse becomes [nan]; neither [nan <= 0] nor
    [nan >= 65] holds, so the age check lets it through and validation goes
    on as if no age had been given. *)
Lemma unparsable_age_is_skipped s amt risk req :
  py_int s = inl ValueError →
  validate_data (Some s) amt risk req = validate_data None amt risk req.
Proof.
  intros E. rewrite !validate_data_checks. cbn.
  by rewrite (parse_int_inl _ _ E).
Qed.

(** In the same way [nan < 5000] does not hold. *)
Lemma unparsable_investment_is_skipped age s risk req :
  py_int s = inl ValueError →
  validate_data age (Some s) risk req = validate_data age None risk req.
Proof.
  intros E. rewrite !validate_data_checks. cbn.
  by rewrite (parse_int_inl _ _ E).
Qed.

(** An amount that parses below 5000 is refused, when the age is absent or
    passes its check. *)
Lemma investment_below_minimum_fails age s i risk req :
  age_fails age = false →
  py_int s = inr i → i < 5000 →
  validate_data age (Some s) risk req = investment_verdict.
Proof.
  intros A E H. rewrite validate_data_checks, A.
  assert (investment_fails (Some s) = true) as ->; [|done].
  apply investment_fails_iff. eauto.
Qed.

(** An age that parses outside 1..64 is refused whatever the other fields. *)
Lemma age_out_of_range_fails s a amt risk req :
  py_int s = inr a → a ≤ 0 ∨ 65 ≤ a →
  validate_data (Some s) amt risk req = age_verdict.
Proof.
  intros E H. rewrite validate_data_checks.
  assert (age_fails (Some s) = true) as ->; [|done].
  apply age_fails_iff. eauto.
Qed.

(** C1 (evaluation of the code at the failing input): the age ["abc"] does
    not parse as an integer, yet [validate_data] returns the valid verdict,
    with no violated slot, instead of an invalid verdict on ["age"]. *)
Theorem C1_unparsable_age_is_accepted :
  py_int "abc" = inl ValueError
  ∧ ∀ req,
      validate_data (Some "abc") None None req = valid_verdict
      ∧ violatedSlot (validate_data (Some "abc") None None req) ≠ Some "age".
Proof. split; [reflexivity|]. intros req. split; [reflexivity|done]. Qed.

(** C2 (evaluation of the code at the failing input): the investment amount
    ["abc"] does not parse as an integer, yet with the age absent
    [validate_data] returns the valid verdict instead of an invalid verdict
    on ["investmentAmount"]. *)
Theorem C2_unparsable_investment_is_accepted :
  py_int "abc" = inl ValueError
  ∧ ∀ req,
      validate_data None (Some "abc") None req = valid_verdict
      ∧ violatedSlot (validate_data None (Some "abc") None req)
        ≠ Some "investmentAmount".
Proof. split; [reflexivity|]. intros req. split; [reflexivity|done]. Qed.

(** C3: when every present field is acceptable (the age parses to an integer
    strictly between 0 and 65, the amount parses to an integer of at least
    5000, the risk level equals one of the four levels up to letter case),
    [validate_data] returns valid, with no violated slot and no message. *)
Theorem C3_acceptable_fields_are_valid age amt risk req :
  (∀ s, age = Some s → ∃ a, py_int s = inr a ∧ 0 < a < 65) →
  (∀ s, amt = Some s → ∃ i, py_int s = inr i ∧ 5000 ≤ i) →
  (∀ r, risk = Some r →
        ∃ w, w ∈ risk_levels ∧ eq_ignore_case r w = true) →
  isValid (validate_data age amt risk req) = true
  ∧ violatedSlot (validate_data age amt risk req) = None
  ∧ message (validate_data age amt risk req) = None.
Proof.
  intros Hage Hamt Hrisk. rewrite validate_data_checks.
  assert (age_fails age = false) as ->.
  { destruct age as [s|]; [|done].
    destruct (Hage s eq_refl) as (a & E & H). cbn.
    rewrite (parse_int_inr _ _ E). cbn. lia. }
  assert (investment_fails amt = false) as ->.
  { destruct amt as [s|]; [|done].
    destruct (Hamt s eq_refl) as (i & E & H). cbn.
    rewrite (parse_int_inr _ _ E). cbn. lia. }
  assert (risk_fails risk = false) as ->; [|done].
  destruct risk as [r|]; [|done]. cbn.
  rewrite negb_false_iff, bool_decide_eq_true.
  apply lower_in_risk_levels. eauto.
Qed.

Lemma C3_acceptable_fields_are_valid_witness :
  isValid (validate_data (Some "30") (Some "6000") (Some "Low")
             (sample_request "DialogCodeHook" "recommendPortfolio")) = true
  ∧ violatedSlot (validate_data (Some "30") (Some "6000") (Some "Low")
             (sample_request "DialogCodeHook" "recommendPortfolio")) = None
  ∧ message (validate_data (Some "30") (Some "6000") (Some "Low")
             (sample_request "DialogCodeHook" "recommendPortfolio")) = None.
Proof.
  apply C3_acceptable_fields_are_valid.
  - intros s [= <-]. exists 30. split; [reflexivity|lia].
  - intros s [= <-]. exists 6000. split; [reflexivity|lia].
  - intros r [= <-]. exists "low". split; [|reflexivity].
    unfold risk_levels. apply list_elem_of_further, list_elem_of_here.
Defined.

(** The checks run in the order age, investment amount, risk level, and the
    first one that fires decides the verdict whatever the later fields hold.
    A check fires as the code has it ([age_fails_iff], [investment_fails_iff],
    [risk_fails_iff]): an unparsable number fires none. *)
Lemma first_firing_check_decides age amt risk req :
  (age_fails age = true →
     ∀ amt' risk', validate_data age amt' risk' req = age_verdict)
  ∧ (age_fails age = false → investment_fails amt = true →
     ∀ risk', validate_data age amt risk' req = investment_verdict)
  ∧ (age_fails age = false → investment_fails amt = false →
     risk_fails risk = true →
     validate_data age amt risk req = risk_verdict)
  ∧ (age_fails age = false → investment_fails amt = false →
     risk_fails risk = false →
     validate_data age amt risk req = valid_verdict)
  ∧ (age_fails age = true → risk_fails risk = true →
     violatedSlot (validate_data age amt risk req) = Some "age").
Proof.
  repeat split.
  - intros A amt' risk'. by rewrite validate_data_checks, A.
  - intros A I risk'. by rewrite validate_data_checks, A, I.
  - intros A I R. by rewrite validate_data_checks, A, I, R.
  - intros A I R. by rewrite validate_data_checks, A, I, R.
  - intros A _. by rewrite validate_data_checks, A.
Qed.

(** The same order on parsed values: an age outside 1..64 together with an
    unknown risk level is reported on ["age"]. *)
Lemma age_reported_before_risk s a amt r req :
  py_int s = inr a → a ≤ 0 ∨ 65 ≤ a →
  (∀ w, w ∈ risk_levels → eq_ignore_case r w = false) →
  risk_fails (Some r) = true
  ∧ violatedSlot (validate_data (Some s) amt (Some r) req) = Some "age".
Proof.
  intros E H R. split.
  - apply risk_fails_iff. eauto.
  - by rewrite (age_out_of_range_fails s a).
Qed.

Example validate_age_and_risk_invalid req :
  validate_data (Some "70") (Some "10") (Some "extreme") req = age_verdict.
Proof. reflexivity. Qed.

Example validate_investment_and_risk_invalid req :
  validate_data (Some "64") (Some "4999") (Some "extreme") req
  = investment_verdict.
Proof. reflexivity. Qed.

Example validate_risk_invalid req :
  validate_data (Some "1") (Some "5000") (Some "extreme") req = risk_verdict.
Proof. reflexivity. Qed.

(** An age that does not parse does not stop the validation: with an
    acceptable or absent amount and a risk level that is none of the four,
    the field reported is the risk level. *)
Lemma unparsable_age_yields_to_risk_level s amt r req :
  py_int s = inl ValueError →
  investment_fails amt = false →
  (∀ w, w ∈ risk_levels → eq_ignore_case r w = false) →
  validate_data (Some s) amt (Some r) req = risk_verdict.
Proof.
  intros E I R. rewrite (unparsable_age_is_skipped _ _ _ _ E).
  rewrite validate_data_checks, I.
  assert (risk_fails (Some r) = true) as ->; [|done].
  apply risk_fails_iff. eauto.
Qed.

(** C4 (evaluation of the code at the failing input): the age ["abc"] is not
    an integer and the risk level ["extreme"] is none of the four levels, so
    both fields are invalid, and the amount ["6000"] is acceptable.  The
    verdict of [validate_data] names ["riskLevel"] and not ["age"]: the
    unparsable age has passed its check, and the first field reported is a
    later one. *)
Theorem C4_unparsable_age_yields_to_risk_level :
  py_int "abc" = inl ValueError
  ∧ (∀ w, w ∈ risk_levels → eq_ignore_case "extreme" w = false)
  ∧ ∀ req,
      validate_data (Some "abc") (Some "6000") (Some "extreme") req
      = risk_verdict
      ∧ violatedSlot
          (validate_data (Some "abc") (Some "6000") (Some "extreme") req)
        ≠ Some "age".
Proof.
  split; [reflexivity|]. split.
  - intros w. unfold risk_levels. rewrite !elem_of_cons, elem_of_nil.
    intros [->|[->|[->|[->|[]]]]]; reflexivity.
  - intros req. split; [reflexivity|done].
Qed.

(** ** The allocation table *)

Lemma get_rec_lower r :
  get_rec (Some r) =
  inr (if bool_decide (PyStr.lower r = "none")
       then "100% bonds (AGG), 0% equities (SPY)"
       else if bool_decide (PyStr.lower r = "low")
       then "60% bonds (AGG), 40% equities (SPY)"
       else if bool_decide (PyStr.lower r = "medium")
       then "40% bonds (AGG), 60% equities (SPY)"
       else if bool_decide (PyStr.lower r = "high")
       then "20% bonds (AGG), 80% equities (SPY)"
       else "Invalid Risk Level").
Proof. reflexivity. Qed.

(** C6: on every string [get_rec] returns, and what it returns is fixed by
    the risk level up to letter case: the four levels give their four
    allocations and every other string gives ["Invalid Risk Level"]. *)
Theorem C6_allocation_table r :
  (∃ out, get_rec (Some r) = inr out)
  ∧ (eq_ignore_case r "none" = true →
     get_rec (Some r) = inr "100% bonds (AGG), 0% equities (SPY)")
  ∧ (eq_ignore_case r "low" = true →
     get_rec (Some r) = inr "60% bonds (AGG), 40% equities (SPY)")
  ∧ (eq_ignore_case r "medium" = true →
     get_rec (Some r) = inr "40% bonds (AGG), 60% equities (SPY)")
  ∧ (eq_ignore_case r "high" = true →
     get_rec (Some r) = inr "20% bonds (AGG), 80% equities (SPY)")
  ∧ ((∀ w, w ∈ risk_levels → eq_ignore_case r w = false) →
     get_rec (Some r) = inr "Invalid Risk Level").
Proof.
  split; [by eexists|].
  rewrite get_rec_lower.
  repeat split.
  - intros ->%eq_ignore_case_lower. reflexivity.
  - intros ->%eq_ignore_case_lower. reflexivity.
  - intros ->%eq_ignore_case_lower. reflexivity.
  - intros ->%eq_ignore_case_lower. reflexivity.
  - intros H.
    assert (∀ w, w ∈ risk_levels → PyStr.lower r ≠ w) as N.
    { intros w Hw E. specialize (H w Hw).
      apply not_true_iff_false in H. apply H, eq_ignore_case_lower.
      by rewrite E, lower_risk_levels. }
    rewrite !bool_decide_eq_false_2; [done|apply N; set_solver ..].
Qed.

Lemma C6_allocation_table_witness :
  get_rec (Some "MeDiUm") = inr "40% bonds (AGG), 60% equities (SPY)"
  ∧ get_rec (Some "extreme") = inr "Invalid Risk Level".
Proof.
  split.
  - apply (C6_allocation_table "MeDiUm"). reflexivity.
  - apply (C6_allocation_table "extreme").
    unfold risk_levels. intros w.
    rewrite !elem_of_cons, elem_of_nil.
    intros [->|[->|[->|[->|[]]]]]; reflexivity.
Defined.

Example get_rec_none : get_rec (Some "NONE") = inr "100% bonds (AGG), 0% equities (SPY)".
Proof. reflexivity. Qed.
Example get_rec_low : get_rec (Some "Low") = inr "60% bonds (AGG), 40% equities (SPY)".
Proof. reflexivity. Qed.
Example get_rec_high : get_rec (Some "high") = inr "20% bonds (AGG), 80% equities (SPY)".
Proof. reflexivity. Qed.
Example get_rec_empty : get_rec (Some "") = inr "Invalid Risk Level".
Proof. reflexivity. Qed.

(** ** The intent handler *)

(** A response was returned only if the four slots could be read. *)
Lemma recommend_portfolio_returns_reads req σ r σ' :
  recommend_portfolio req σ = (inr r, σ') →
  ∃ fn age amt risk, has_slots (σ (get_slots req)) fn age amt risk.
Proof.
  unfold recommend_portfolio, mbind, M_bind, getitem, has_slots.
  destruct (σ (get_slots req) !! Some "firstName") as [fn|]; [|done].
  destruct (σ (get_slots req) !! Some "age") as [age|]; [|done].
  destruct (σ (get_slots req) !! Some "investmentAmount") as [amt|]; [|done].
  destruct (σ (get_slots req) !! Some "riskLevel") as [risk|]; [|done].
  intros _. by exists fn, age, amt, risk.
Qed.

(** The intermediate turn, once the slots are read. *)
Lemma recommend_portfolio_intermediate req σ fn age amt risk :
  intermediate_phase req →
  has_slots (σ (get_slots req)) fn age amt risk →
  recommend_portfolio req σ =
  let v := validate_data age amt risk req in
  if isValid v
  then (inr (delegate (sessionAttributes req) (get_slots req)), σ)
  else (match message v with
        | Some msg =>
            inr (elicit_slot (sessionAttributes req)
                   (name (currentIntent req)) (get_slots req)
                   (violatedSlot v) msg)
        | None => inl (KeyError (Some "message"))
        end,
        <[get_slots req := <[violatedSlot v := None]> (σ (get_slots req))]> σ).
Proof.
  unfold intermediate_phase. intros S (F & A & I & R).
  unfold recommend_portfolio, mbind, M_bind, getitem, result_message, lift.
  rewrite F, A, I, R, S, bool_decide_eq_true_2 by done.
  destruct (validate_data age amt risk req) as [[] f [msg|]]; done.
Qed.

(** The fulfillment turn, once the slots are read. *)
Lemma recommend_portfolio_final req σ fn age amt risk :
  final_phase req →
  has_slots (σ (get_slots req)) fn age amt risk →
  recommend_portfolio req σ =
  match get_rec risk with
  | inr rec =>
      (inr (close (sessionAttributes req) "Fulfilled"
              (mkMessage "PlainText" (closing_content fn rec))), σ)
  | inl e => (inl e, σ)
  end.
Proof.
  unfold final_phase. intros S (F & A & I & R).
  unfold recommend_portfolio, mbind, M_bind, getitem, lift.
  rewrite F, A, I, R, bool_decide_eq_false_2 by done.
  by destruct (get_rec risk).
Qed.

(** C5: on an intermediate turn whose slots are read as [fn], [age], [amt]
    and [risk]: if validation fails, the handler stores [None] under the
    violated slot in the request's own slot mapping, leaving every other key
    and every other object as it was, and returns the elicit response that
    names that slot, refers to that same mapping, carries the verdict's
    message and the request's session attributes; if validation passes, it
    returns the delegate response referring to the slot mapping and leaves
    the store untouched. *)
Theorem C5_intermediate_turn req σ fn age amt risk :
  intermediate_phase req →
  has_slots (σ (get_slots req)) fn age amt risk →
  (isValid (validate_data age amt risk req) = false →
   ∃ f msg σ',
     violatedSlot (validate_data age amt risk req) = Some f
     ∧ message (validate_data age amt risk req) = Some msg
     ∧ recommend_portfolio req σ =
         (inr (mkResponse (sessionAttributes req)
                 (ElicitSlot (name (currentIntent req)) (get_slots req)
                    (Some f) msg)), σ')
     ∧ σ' = <[get_slots req := <[Some f := None]> (σ (get_slots req))]> σ
     ∧ σ' (get_slots req) !! Some f = Some None
     ∧ (∀ k, k ≠ Some f → σ' (get_slots req) !! k = σ (get_slots req) !! k)
     ∧ (∀ l, l ≠ get_slots req → σ' l = σ l))
  ∧ (isValid (validate_data age amt risk req) = true →
     recommend_portfolio req σ =
       (inr (mkResponse (sessionAttributes req) (Delegate (get_slots req))),
        σ)).
Proof.
  intros S Hs. rewrite (recommend_portfolio_intermediate _ _ _ _ _ _ S Hs).
  cbv zeta. split.
  - intros V.
    destruct (validate_data_invalid_shape _ _ _ _ V) as (f & msg & Hf & Hm & _).
    rewrite V, Hf, Hm. eexists f, msg, _.
    repeat split.
    + by rewrite fn_lookup_insert, lookup_insert_eq.
    + intros k Hk. by rewrite fn_lookup_insert, lookup_insert_ne.
    + intros l Hl. by rewrite fn_lookup_insert_ne.
  - by intros ->.
Qed.

Lemma C5_intermediate_turn_witness :
  ∃ σ',
    recommend_portfolio (sample_request "DialogCodeHook" "recommendPortfolio")
      (sample_store (sample_slots (Some "Jo") (Some "70") None None))
    = (inr (mkResponse 2%positive
              (ElicitSlot "recommendPortfolio" 1%positive (Some "age")
                 (mkMessage "PlainText" age_message))), σ')
    ∧ σ' 1%positive !! Some "age" = Some None
    ∧ σ' 1%positive !! Some "firstName" = Some (Some "Jo").
Proof.
  destruct (C5_intermediate_turn
              (sample_request "DialogCodeHook" "recommendPortfolio")
              (sample_store (sample_slots (Some "Jo") (Some "70") None None))
              (Some "Jo") (Some "70") None None)
    as [Helicit _]; [reflexivity|by repeat split|].
  destruct (Helicit eq_refl) as (f & msg & σ' & [= <-] & [= <-] & Hrun & Hσ'
                                 & Hage & Hother & _).
  exists σ'. split; [exact Hrun|]. split; [exact Hage|].
  rewrite Hother by done. reflexivity.
Defined.

Lemma fulfillment_marker_is_final req :
  invocationSource req = "FulfillmentCodeHook" → final_phase req.
Proof. unfold final_phase. by intros ->. Qed.

Lemma phase_cases req : intermediate_phase req ∨ final_phase req.
Proof.
  unfold intermediate_phase, final_phase.
  destruct (decide (invocationSource req = "DialogCodeHook")); auto.
Qed.

(** C7 (as stated, refuted): a fulfillment request whose four slots exist
    but whose risk level is [None] gets no response at all, so not every
    invocation on one of the two markers produces one of the variants. *)
Lemma C7_no_variant_without_risk_level :
  (invocationSource (sample_request "FulfillmentCodeHook" "recommendPortfolio")
     = "DialogCodeHook"
   ∨ invocationSource (sample_request "FulfillmentCodeHook" "recommendPortfolio")
     = "FulfillmentCodeHook")
  ∧ has_slots (sample_slots (Some "Jo") (Some "30") (Some "6000") None)
      (Some "Jo") (Some "30") (Some "6000") None
  ∧ ¬ ∃ r σ',
        recommend_portfolio
          (sample_request "FulfillmentCodeHook" "recommendPortfolio")
          (sample_store (sample_slots (Some "Jo") (Some "30") (Some "6000") None))
        = (inr r, σ').
Proof.
  split; [by right|]. split; [by repeat split|].
  intros (r & σ' & H). vm_compute in H. discriminate H.
Qed.

(** C7 (amended): every response the handler returns is of the variant of
    its phase: a close response comes from a fulfillment turn only, has
    fulfillment state ["Fulfilled"] and a message built from the first name
    and the allocation of the risk level; an elicit or a delegate response
    comes from an intermediate turn only.  With the four slots readable, an
    intermediate turn always returns an elicit or a delegate response, and a
    fulfillment turn whose risk level is a string always returns a close
    response. *)
Theorem C7_variant_by_phase req σ :
  (∀ r σ', recommend_portfolio req σ = (inr r, σ') →
     match dialogAction r with
     | Close state msg =>
         final_phase req ∧ state = "Fulfilled"
         ∧ ∃ fn risk rec,
             σ (get_slots req) !! Some "firstName" = Some fn
             ∧ σ (get_slots req) !! Some "riskLevel" = Some risk
             ∧ get_rec risk = inr rec
             ∧ msg = mkMessage "PlainText" (closing_content fn rec)
     | ElicitSlot _ _ _ _ | Delegate _ => intermediate_phase req
     end)
  ∧ (∀ fn age amt risk,
       has_slots (σ (get_slots req)) fn age amt risk →
       (intermediate_phase req →
        ∃ r σ', recommend_portfolio req σ = (inr r, σ')
                ∧ is_close r = false
                ∧ xorb (is_elicit r) (is_delegate r) = true)
       ∧ (final_phase req → is_Some risk →
          ∃ r, recommend_portfolio req σ = (inr r, σ)
               ∧ is_close r = true)).
Proof.
  split.
  - intros r σ' Hrun.
    destruct (recommend_portfolio_returns_reads _ _ _ _ Hrun)
      as (fn & age & amt & risk & Hs).
    destruct (phase_cases req) as [S|S].
    + rewrite (recommend_portfolio_intermediate _ _ _ _ _ _ S Hs) in Hrun.
      destruct (validate_data age amt risk req) as [[] f [msg|]];
        cbn in Hrun; simplify_eq; done.
    + rewrite (recommend_portfolio_final _ _ _ _ _ _ S Hs) in Hrun.
      destruct (get_rec risk) as [e|rec] eqn:G; simplify_eq. cbn.
      destruct Hs as (F & _ & _ & R). split; [done|]. split; [done|].
      by exists fn, risk, rec.
  - intros fn age amt risk Hs. split.
    + intros S. rewrite (recommend_portfolio_intermediate _ _ _ _ _ _ S Hs).
      cbv zeta.
      destruct (isValid (validate_data age amt risk req)) eqn:V.
      * by eexists _, _.
      * destruct (validate_data_invalid_shape _ _ _ _ V)
          as (f & msg & _ & -> & _).
        by eexists _, _.
    + intros S [r ->]. rewrite (recommend_portfolio_final _ _ _ _ _ _ S Hs).
      rewrite get_rec_lower. by eexists.
Qed.

Lemma C7_variant_by_phase_witness :
  ∃ r, recommend_portfolio
         (sample_request "FulfillmentCodeHook" "recommendPortfolio")
         (sample_store (sample_slots (Some "Jo") None None (Some "medium")))
       = (inr r,
          sample_store (sample_slots (Some "Jo") None None (Some "medium")))
       ∧ is_close r = true.
Proof.
  apply (proj2 (C7_variant_by_phase
                  (sample_request "FulfillmentCodeHook" "recommendPortfolio")
                  (sample_store
                     (sample_slots (Some "Jo") None None (Some "medium"))))
           (Some "Jo") None None (Some "medium")).
  - by repeat split.
  - done.
  - by eexists.
Defined.

(** The handler passes the session attributes on by reference and writes to
    the slot mapping only. *)
Lemma recommend_portfolio_frame req σ r σ' :
  recommend_portfolio req σ = (inr r, σ') →
  response_sessionAttributes r = sessionAttributes req
  ∧ (∀ l, l ≠ get_slots req → σ' l = σ l).
Proof.
  intros Hrun.
  destruct (recommend_portfolio_returns_reads _ _ _ _ Hrun)
    as (fn & age & amt & risk & Hs).
  destruct (phase_cases req) as [S|S].
  - rewrite (recommend_portfolio_intermediate _ _ _ _ _ _ S Hs) in Hrun.
    destruct (validate_data age amt risk req) as [[] f [msg|]];
      cbn in Hrun; simplify_eq;
      (split; [done|]); intros l Hl; by rewrite ?fn_lookup_insert_ne.
  - rewrite (recommend_portfolio_final _ _ _ _ _ _ S Hs) in Hrun.
    destruct (get_rec risk); simplify_eq. done.
Qed.

(** C8: whatever variant the supported intent returns (elicit, delegate or
    close), the response refers to the very session attributes of the
    request, and the handler has written to no object other than the
    request's slot mapping. *)
Theorem C8_session_attributes_pass_through req σ r σ' :
  dispatch req σ = (inr r, σ') →
  response_sessionAttributes r = sessionAttributes req
  ∧ (∀ l, l ≠ get_slots req → σ' l = σ l).
Proof.
  unfold dispatch. case_bool_decide; [|done].
  apply recommend_portfolio_frame.
Qed.

Lemma C8_session_attributes_pass_through_witness :
  response_sessionAttributes
    (mkResponse 2%positive
       (ElicitSlot "recommendPortfolio" 1%positive (Some "age")
          (mkMessage "PlainText" age_message)))
  = sessionAttributes (sample_request "DialogCodeHook" "recommendPortfolio")
  ∧ (∀ l, l ≠ get_slots (sample_request "DialogCodeHook" "recommendPortfolio") →
       (<[1%positive := <[Some "age" := None]>
                          (sample_slots (Some "Jo") (Some "70") None None)]>
          (sample_store (sample_slots (Some "Jo") (Some "70") None None))) l
       = sample_store (sample_slots (Some "Jo") (Some "70") None None) l).
Proof.
  apply (C8_session_attributes_pass_through
           (sample_request "DialogCodeHook" "recommendPortfolio")
           (sample_store (sample_slots (Some "Jo") (Some "70") None None))).
  reflexivity.
Defined.

(** The same through the entry point. *)
Corollary lambda_handler_session_attributes {Context : Type}
    event (context : Context) σ r σ' :
  lambda_handler event context σ = (inr r, σ') →
  response_sessionAttributes r = sessionAttributes event.
Proof.
  unfold lambda_handler, dispatch. case_bool_decide; [|done].
  by intros [? _]%recommend_portfolio_frame.
Qed.

(** ** The dispatcher *)

(** C9: a request for any intent other than ["recommendPortfolio"] makes the
    dispatcher raise the unsupported-intent exception, whatever the
    invocation source and the slots, leaving the store as it was and
    returning no response; a request for ["recommendPortfolio"] is handed to
    the intent handler. *)
Theorem C9_dispatch_by_intent_name req σ :
  (name (currentIntent req) ≠ "recommendPortfolio" →
     dispatch req σ =
       (inl (Exception ("Intent with name " +:+ name (currentIntent req)
                        +:+ " not supported")), σ)
     ∧ ∀ r σ', dispatch req σ ≠ (inr r, σ'))
  ∧ (name (currentIntent req) = "recommendPortfolio" →
     dispatch req σ = recommend_portfolio req σ).
Proof.
  unfold dispatch. split; intros H.
  - rewrite bool_decide_eq_false_2 by done. split; [done|].
    intros r σ'. unfold raise. congruence.
  - by rewrite bool_decide_eq_true_2.
Qed.

Lemma C9_dispatch_by_intent_name_witness :
  dispatch (sample_request "DialogCodeHook" "other")
    (sample_store (sample_slots None None None None))
  = (inl (Exception "Intent with name other not supported"),
     sample_store (sample_slots None None None None)).
Proof.
  apply (proj1 (C9_dispatch_by_intent_name
                  (sample_request "DialogCodeHook" "other")
                  (sample_store (sample_slots None None None None)))).
  done.
Defined.

Example dispatch_other_intent_at_fulfillment :
  (dispatch (sample_request "FulfillmentCodeHook" "other")
     (sample_store (sample_slots None None None None))).1
  = inl (Exception "Intent with name other not supported").
Proof. reflexivity. Qed.

(** ** Fulfillment without a risk level *)

(** C10: on a fulfillment turn whose risk level slot holds [None] the handler
    raises and returns no response: [get_rec] calls [lower] on [None], which
    is an [AttributeError] (once the four slots have been read), and the store
    is left as it was.  The ["Invalid Risk Level"] answer is for strings only:
    on every string [get_rec] returns. *)
Theorem C10_absent_risk_level_raises req σ :
  final_phase req →
  σ (get_slots req) !! Some "riskLevel" = Some None →
  (∃ e, recommend_portfolio req σ = (inl e, σ))
  ∧ (∀ fn age amt,
       has_slots (σ (get_slots req)) fn age amt None →
       recommend_portfolio req σ =
         (inl (AttributeError "'NoneType' object has no attribute 'lower'"),
          σ))
  ∧ get_rec None
    = inl (AttributeError "'NoneType' object has no attribute 'lower'")
  ∧ (∀ s, ∃ out, get_rec (Some s) = inr out).
Proof.
  intros S R. repeat split.
  - unfold final_phase in S.
    unfold recommend_portfolio, mbind, M_bind, getitem, lift.
    destruct (σ (get_slots req) !! Some "firstName"); [|by eexists].
    destruct (σ (get_slots req) !! Some "age"); [|by eexists].
    destruct (σ (get_slots req) !! Some "investmentAmount"); [|by eexists].
    rewrite R, bool_decide_eq_false_2 by done. by eexists.
  - intros fn age amt Hs.
    by rewrite (recommend_portfolio_final _ _ _ _ _ _ S Hs).
  - intros s. by eexists.
Qed.

Lemma C10_absent_risk_level_raises_witness :
  recommend_portfolio
    (sample_request "FulfillmentCodeHook" "recommendPortfolio")
    (sample_store (sample_slots (Some "Jo") (Some "30") (Some "6000") None))
  = (inl (AttributeError "'NoneType' object has no attribute 'lower'"),
     sample_store (sample_slots (Some "Jo") (Some "30") (Some "6000") None)).
Proof.
  apply (proj1 (proj2 (C10_absent_risk_level_raises
           (sample_request "FulfillmentCodeHook" "recommendPortfolio")
           (sample_store
              (sample_slots (Some "Jo") (Some "30") (Some "6000") None))
           ltac:(done) ltac:(reflexivity)))
           (Some "Jo") (Some "30") (Some "6000")).
  by repeat split.
Defined.

(** ** The scenarios of the specification *)

Example scenario_A :
  recommend_portfolio (sample_request "DialogCodeHook" "recommendPortfolio")
    (sample_store (sample_slots None (Some "10") (Some "6000") (Some "low")))
  = (inr (mkResponse 2%positive (Delegate 1%positive)),
     sample_store (sample_slots None (Some "10") (Some "6000") (Some "low"))).
Proof. reflexivity. Qed.

Example scenario_B :
  (recommend_portfolio (sample_request "DialogCodeHook" "recommendPortfolio")
     (sample_store (sample_slots None (Some "70") None None))).1
  = inr (mkResponse 2%positive
           (ElicitSlot "recommendPortfolio" 1%positive (Some "age")
              (mkMessage "PlainText" age_message))).
Proof. reflexivity. Qed.

Example scenario_C :
  (recommend_portfolio (sample_request "DialogCodeHook" "recommendPortfolio")
     (sample_store (sample_slots None (Some "30") (Some "100") None))).1
  = inr (mkResponse 2%positive
           (ElicitSlot "recommendPortfolio" 1%positive
              (Some "investmentAmount")
              (mkMessage "PlainText" investment_message))).
Proof. reflexivity. Qed.

Example scenario_D :
  (recommend_portfolio (sample_request "DialogCodeHook" "recommendPortfolio")
     (sample_store
        (sample_slots None (Some "30") (Some "6000") (Some "extreme")))).1
  = inr (mkResponse 2%positive
           (ElicitSlot "recommendPortfolio" 1%positive (Some "riskLevel")
              (mkMessage "PlainText" risk_message))).
Proof. reflexivity. Qed.

Example scenario_E :
  (recommend_portfolio
     (sample_request "FulfillmentCodeHook" "recommendPortfolio")
     (sample_store (sample_slots (Some "Jo") None None (Some "medium")))).1
  = inr (mkResponse 2%positive
           (Close "Fulfilled"
              (mkMessage "PlainText"
                 "Thank you, Jo, you should allocate your funds like so: 40% bonds (AGG), 60% equities (SPY)"))).
Proof. reflexivity. Qed.

(** The two unparsable inputs, through the handler: both are delegated. *)
Example unparsable_age_is_delegated :
  (recommend_portfolio (sample_request "DialogCodeHook" "recommendPortfolio")
     (sample_store (sample_slots None (Some "abc") None None))).1
  = inr (mkResponse 2%positive (Delegate 1%positive)).
Proof. reflexivity. Qed.

Example unparsable_investment_is_delegated :
  (recommend_portfolio (sample_request "DialogCodeHook" "recommendPortfolio")
     (sample_store (sample_slots None (Some "30") (Some "abc") None))).1
  = inr (mkResponse 2%positive (Delegate 1%positive)).
Proof. reflexivity. Qed.

(** * Further properties *)

(** ** What [parse_int] accepts *)

Lemma read_sign_cases s :
  (∃ r, s = String "+" r ∧ PyStr.read_sign s = (false, r))
  ∨ (∃ r, s = String "-" r ∧ PyStr.read_sign s = (true, r))
  ∨ (PyStr.read_sign s = (false, s)
     ∧ ∀ c r, s = String c r → c ≠ "+"%char ∧ c ≠ "-"%char).
Proof.
  destruct s as [|c r]; [by right; right|].
  destruct (Ascii.eqb_spec c "+") as [->|Np]; [left; by eexists|].
  destruct (Ascii.eqb_spec c "-") as [->|Nm]; [right; left; by eexists|].
  right; right. split; [|by intros ? ? [= <- <-]].
  destruct c as [[] [] [] [] [] [] [] []]; done.
Qed.

Lemma int_of_str_body s :
  PyStr.int_of_str s =
  parse_body (PyStr.read_sign (PyStr.skip_space s)).1
             (PyStr.read_sign (PyStr.skip_space s)).2.
Proof.
  unfold PyStr.int_of_str. by destruct (PyStr.read_sign _).
Qed.

Lemma space_not_digit c : PyStr.is_space c = true → PyStr.is_digit c = false.
Proof. unfold PyStr.is_digit, PyStr.is_space. case_cmp. Qed.

Lemma space_not_special c :
  PyStr.is_space c = true →
  Ascii.eqb c "_" = false ∧ c ≠ "+"%char ∧ c ≠ "-"%char.
Proof.
  intros H. repeat split.
  - destruct (Ascii.eqb_spec c "_") as [->|]; [discriminate|done].
  - intros ->. discriminate.
  - intros ->. discriminate.
Qed.

Lemma skip_space_spaces w :
  all_chars PyStr.is_space w = true → PyStr.skip_space w = "".
Proof.
  induction w as [|c w IH]; [done|]. cbn. intros [-> ?]%andb_true_iff. auto.
Qed.

Lemma skip_space_app_l w s :
  all_chars PyStr.is_space w = true →
  PyStr.skip_space (w +:+ s) = PyStr.skip_space s.
Proof.
  induction w as [|c w IH]; [done|]. cbn [all_chars].
  intros [Hc ?]%andb_true_iff.
  change (String c w +:+ s) with (String c (w +:+ s)).
  cbn [PyStr.skip_space]. rewrite Hc. auto.
Qed.

Lemma skip_space_app_r s w :
  all_chars PyStr.is_space w = true →
  PyStr.skip_space (s +:+ w) =
  match PyStr.skip_space s with
  | EmptyString => EmptyString
  | String c r => String c r +:+ w
  end.
Proof.
  intros W. induction s as [|c s IH].
  - change ("" +:+ w) with w. by rewrite (skip_space_spaces _ W).
  - change (String c s +:+ w) with (String c (s +:+ w)).
    cbn [PyStr.skip_space]. by destruct (PyStr.is_space c).
Qed.

Lemma scan_digits_app_r w :
  all_chars PyStr.is_space w = true →
  ∀ s b acc,
    PyStr.scan_digits b acc (s +:+ w) =
    match PyStr.scan_digits b acc s with
    | Some (n, rest) => Some (n, rest +:+ w)
    | None => None
    end.
Proof.
  intros W. induction s as [|c s IH]; intros b acc.
  - change ("" +:+ w) with w. cbn [PyStr.scan_digits].
    destruct w as [|c w]; [by destruct b|].
    cbn [all_chars] in W. apply andb_true_iff in W as [Hc _].
    cbn [PyStr.scan_digits]. rewrite (space_not_digit _ Hc).
    destruct (space_not_special _ Hc) as (-> & _ & _). by destruct b.
  - change (String c s +:+ w) with (String c (s +:+ w)).
    cbn [PyStr.scan_digits]. destruct (PyStr.is_digit c); [apply IH|].
    destruct (Ascii.eqb c "_"), b; first [done | apply IH].
Qed.

Lemma count_digits_app_r w :
  all_chars PyStr.is_space w = true →
  ∀ s, PyStr.count_digits (s +:+ w) = PyStr.count_digits s.
Proof.
  intros W. induction s as [|c s IH].
  - change ("" +:+ w) with w. destruct w as [|c w]; [done|].
    cbn [all_chars] in W. apply andb_true_iff in W as [Hc _].
    cbn [PyStr.count_digits]. rewrite (space_not_digit _ Hc).
    by destruct (space_not_special _ Hc) as (-> & _ & _).
  - change (String c s +:+ w) with (String c (s +:+ w)).
    cbn [PyStr.count_digits]. by rewrite IH.
Qed.

Lemma parse_body_app_r neg body w :
  all_chars PyStr.is_space w = true →
  parse_body neg (body +:+ w) = parse_body neg body.
Proof.
  intros W. destruct body as [|c r].
  - change ("" +:+ w) with w. destruct w as [|c w]; [done|].
    cbn [all_chars] in W. apply andb_true_iff in W as [Hc _].
    unfold parse_body. by rewrite (space_not_digit _ Hc).
  - unfold parse_body.
    change (String c r +:+ w) with (String c (r +:+ w)). cbv beta iota.
    destruct (PyStr.is_digit c); [|done].
    change (String c (r +:+ w)) with (String c r +:+ w).
    rewrite (scan_digits_app_r w W), (count_digits_app_r w W).
    destruct (PyStr.scan_digits false 0 (String c r)) as [[n rest]|]; [|done].
    destruct (PyStr.max_str_digits <? PyStr.count_digits (String c r));
      [done|].
    rewrite (skip_space_app_r rest w W).
    by destruct (PyStr.skip_space rest).
Qed.

Lemma read_sign_app_r c r w :
  PyStr.read_sign (String c r +:+ w) =
  ((PyStr.read_sign (String c r)).1, (PyStr.read_sign (String c r)).2 +:+ w).
Proof.
  destruct (read_sign_cases (String c r))
    as [(r' & [= -> ->] & _)|[(r' & [= -> ->] & _)|[E N]]]; [done..|].
  rewrite E. cbn [fst snd].
  destruct (read_sign_cases (String c r +:+ w))
    as [(r' & [= -> _] & _)|[(r' & [= -> _] & _)|[E' _]]]; [..|done];
    by destruct (N _ _ eq_refl).
Qed.

Lemma int_of_str_strip w1 s w2 :
  all_chars PyStr.is_space w1 = true →
  all_chars PyStr.is_space w2 = true →
  PyStr.int_of_str (w1 +:+ s +:+ w2) = PyStr.int_of_str s.
Proof.
  intros W1 W2. rewrite !int_of_str_body.
  rewrite (skip_space_app_l _ _ W1), (skip_space_app_r _ _ W2).
  destruct (PyStr.skip_space s) as [|c r]; [done|].
  rewrite read_sign_app_r. cbn [fst snd]. by apply parse_body_app_r.
Qed.

(** X2: whitespace around the text does not change what [parse_int]
    reads. *)
Theorem parse_int_strip w1 s w2 :
  all_chars PyStr.is_space w1 = true →
  all_chars PyStr.is_space w2 = true →
  parse_int (w1 +:+ s +:+ w2) = parse_int s.
Proof.
  intros W1 W2. unfold parse_int, py_int.
  by rewrite (int_of_str_strip _ _ _ W1 W2).
Qed.

Lemma parse_int_strip_witness : parse_int (" " +:+ "42" +:+ "  ") = parse_int "42".
Proof. apply parse_int_strip; reflexivity. Defined.

Lemma all_chars_skip_space p s :
  (∀ c, PyStr.is_space c = true → p c = true) →
  all_chars p (PyStr.skip_space s) = true → all_chars p s = true.
Proof.
  intros Hp. induction s as [|c s IH]; [done|]. cbn.
  destruct (PyStr.is_space c) eqn:E; [|done].
  intros H. by rewrite (Hp _ E), IH.
Qed.

Lemma int_char_space c : PyStr.is_space c = true → int_char c = true.
Proof. unfold int_char. by intros ->. Qed.

Lemma all_chars_read_sign s :
  all_chars int_char (PyStr.read_sign s).2 = true →
  all_chars int_char s = true.
Proof.
  destruct (read_sign_cases s)
    as [(r & -> & ->)|[(r & -> & ->)|[-> _]]]; done.
Qed.

Lemma all_chars_scan_digits s :
  ∀ b acc n rest,
    PyStr.scan_digits b acc s = Some (n, rest) →
    all_chars int_char rest = true → all_chars int_char s = true.
Proof.
  induction s as [|c s IH]; intros b acc n rest; cbn [PyStr.scan_digits].
  - by destruct b; intros [= <- <-].
  - intros H Hrest. cbn [all_chars]. unfold int_char.
    destruct (PyStr.is_digit c) eqn:D.
    { rewrite orb_true_r. cbn. by eapply IH. }
    destruct (Ascii.eqb c "_") eqn:U.
    { rewrite orb_true_r. cbn. destruct b; [done|by eapply IH]. }
    destruct b; [done|]. injection H as <- <-.
    cbn [all_chars] in Hrest. unfold int_char in Hrest.
    by rewrite D, U in Hrest.
Qed.

(** Every string that [int] reads is made of whitespace, digits, underscores
    and signs only. *)
Lemma int_of_str_chars s z :
  PyStr.int_of_str s = Some z → all_chars int_char s = true.
Proof.
  rewrite int_of_str_body. intros H.
  apply (all_chars_skip_space _ _ int_char_space), all_chars_read_sign.
  destruct (PyStr.read_sign (PyStr.skip_space s)) as [neg body].
  cbn [fst snd] in *. unfold parse_body in H.
  destruct body as [|c r]; [done|].
  destruct (PyStr.is_digit c); [|done].
  destruct (PyStr.scan_digits false 0 (String c r)) as [[n rest]|] eqn:S;
    [|done].
  destruct (PyStr.max_str_digits <? PyStr.count_digits (String c r));
    [done|].
  apply (all_chars_scan_digits _ _ _ _ _ S).
  apply (all_chars_skip_space _ _ int_char_space).
  by destruct (PyStr.skip_space rest).
Qed.

(** X3: a string with any character that is not whitespace, a digit, an
    underscore or a sign becomes [nan]; given as the age or as the amount it
    passes the check of its field, so the verdict is the one the other fields
    give. *)
Theorem foreign_character_is_accepted s :
  all_chars int_char s = false →
  parse_int s = NaN
  ∧ ∀ age amt risk req,
      validate_data (Some s) amt risk req = validate_data None amt risk req
      ∧ validate_data age (Some s) risk req = validate_data age None risk req.
Proof.
  intros H.
  assert (py_int s = inl ValueError) as E.
  { unfold py_int. destruct (PyStr.int_of_str s) as [z|] eqn:E; [|done].
    apply int_of_str_chars in E. congruence. }
  split; [by apply (parse_int_inl _ _ E)|]. intros age amt risk req.
  split.
  - by apply unparsable_age_is_skipped.
  - by apply unparsable_investment_is_skipped.
Qed.

Lemma foreign_character_is_accepted_witness :
  parse_int "6.5" = NaN
  ∧ ∀ age amt risk req,
      validate_data (Some "6.5") amt risk req
      = validate_data None amt risk req
      ∧ validate_data age (Some "6.5") risk req
        = validate_data age None risk req.
Proof. apply foreign_character_is_accepted. reflexivity. Defined.

(** ** The decision table of the validator *)

(** X4: [validate_data] answers valid exactly when each field is absent, or does
    not parse (for the two numbers), or satisfies its condition. *)
Theorem validate_data_valid_iff age amt risk req :
  isValid (validate_data age amt risk req) = true ↔
  (∀ s a, age = Some s → py_int s = inr a → 0 < a < 65)
  ∧ (∀ s i, amt = Some s → py_int s = inr i → 5000 ≤ i)
  ∧ (∀ r, risk = Some r → ∃ w, w ∈ risk_levels ∧ eq_ignore_case r w = true).
Proof.
  rewrite validate_data_checks. split.
  - intros V.
    destruct (age_fails age) eqn:A; [done|].
    destruct (investment_fails amt) eqn:I; [done|].
    destruct (risk_fails risk) eqn:R; [done|].
    split; [|split].
    + intros s a -> E.
      destruct (decide (0 < a < 65)) as [|N]; [done|].
      assert (age_fails (Some s) = true); [|congruence].
      apply age_fails_iff. exists s, a. repeat split; [done|lia].
    + intros s i -> E.
      destruct (decide (5000 ≤ i)) as [|N]; [done|].
      assert (investment_fails (Some s) = true); [|congruence].
      apply investment_fails_iff. exists s, i. repeat split; [done|lia].
    + intros r ->. apply lower_in_risk_levels.
      cbn in R. by apply negb_false_iff, bool_decide_eq_true in R.
  - intros (HA & HI & HR).
    assert (age_fails age = false) as ->.
    { apply not_true_iff_false. intros (s & a & -> & E & H)%age_fails_iff.
      specialize (HA s a eq_refl E). lia. }
    assert (investment_fails amt = false) as ->.
    { apply not_true_iff_false.
      intros (s & i & -> & E & H)%investment_fails_iff.
      specialize (HI s i eq_refl E). lia. }
    assert (risk_fails risk = false) as ->; [|done].
    apply not_true_iff_false. intros (r & -> & H)%risk_fails_iff.
    destruct (HR r eq_refl) as (w & Hw & E). rewrite (H w Hw) in E. done.
Qed.

(** X5: the verdict names ["age"] exactly when the age is present and parses to
    an integer outside 1..64; the bounds 1 and 64 are accepted, 0 and 65 are
    refused. *)
Theorem validate_data_age_iff age amt risk req :
  violatedSlot (validate_data age amt risk req) = Some "age" ↔
  ∃ s a, age = Some s ∧ py_int s = inr a ∧ (a ≤ 0 ∨ 65 ≤ a).
Proof.
  rewrite <- age_fails_iff, validate_data_checks.
  destruct (age_fails age); [done|].
  by destruct (investment_fails amt), (risk_fails risk).
Qed.

(** X6: the verdict names ["investmentAmount"] exactly when the age check does
    not fire and the amount is present and parses to an integer below
    5000. *)
Theorem validate_data_investment_iff age amt risk req :
  violatedSlot (validate_data age amt risk req) = Some "investmentAmount" ↔
  age_fails age = false
  ∧ ∃ s i, amt = Some s ∧ py_int s = inr i ∧ i < 5000.
Proof.
  rewrite <- investment_fails_iff, validate_data_checks.
  destruct (age_fails age); [by split; [|intros []]|].
  destruct (investment_fails amt); [done|].
  destruct (risk_fails risk); by split; [|intros []].
Qed.

(** ** Letter case of the risk level *)

(** X7: two risk levels that differ in letter case only get the same verdict and
    the same allocation. *)
Theorem risk_level_case_is_irrelevant r r' age amt req :
  eq_ignore_case r r' = true →
  validate_data age amt (Some r) req = validate_data age amt (Some r') req
  ∧ get_rec (Some r) = get_rec (Some r').
Proof.
  intros E%eq_ignore_case_lower. split.
  - rewrite !validate_data_checks. unfold risk_fails. by rewrite E.
  - rewrite !get_rec_lower. by rewrite E.
Qed.

Lemma risk_level_case_is_irrelevant_witness :
  validate_data (Some "30") None (Some "HIGH")
    (sample_request "DialogCodeHook" "recommendPortfolio")
  = validate_data (Some "30") None (Some "high")
      (sample_request "DialogCodeHook" "recommendPortfolio")
  ∧ get_rec (Some "HIGH") = get_rec (Some "high").
Proof. apply risk_level_case_is_irrelevant. reflexivity. Defined.

(** X8: the validator and the allocation table know the same risk levels: the
    risk check fires on a string exactly when [get_rec] answers
    ["Invalid Risk Level"] on it. *)
Theorem risk_check_agrees_with_table r :
  risk_fails (Some r) = true ↔ get_rec (Some r) = inr "Invalid Risk Level".
Proof.
  rewrite get_rec_lower. unfold risk_fails, risk_levels.
  rewrite negb_true_iff, bool_decide_eq_false.
  rewrite !elem_of_cons, elem_of_nil.
  repeat case_bool_decide;
    (split; [intros Hno; try (exfalso; apply Hno; tauto); done
            |intros Hrec; try discriminate Hrec; tauto]).
Qed.

(** ** Reading the slots *)

(** Either the four slots are read, or the first key that is missing makes
    the handler raise before anything else happens. *)
Lemma recommend_portfolio_reads_or_fails req σ :
  (∃ fn age amt risk, has_slots (σ (get_slots req)) fn age amt risk)
  ∨ (∃ k, k ∈ slot_names ∧ σ (get_slots req) !! Some k = None
          ∧ recommend_portfolio req σ = (inl (KeyError (Some k)), σ)).
Proof.
  unfold recommend_portfolio, mbind, M_bind, getitem, has_slots, slot_names.
  destruct (σ (get_slots req) !! Some "firstName") as [fn|] eqn:F;
    [|right; exists "firstName"; split; [set_solver|done]].
  destruct (σ (get_slots req) !! Some "age") as [age|] eqn:A;
    [|right; exists "age"; split; [set_solver|done]].
  destruct (σ (get_slots req) !! Some "investmentAmount") as [amt|] eqn:I;
    [|right; exists "investmentAmount"; split; [set_solver|done]].
  destruct (σ (get_slots req) !! Some "riskLevel") as [risk|] eqn:R;
    [|right; exists "riskLevel"; split; [set_solver|done]].
  left. by exists fn, age, amt, risk.
Qed.

(** X9: the slots are read in the order [firstName], [age], [investmentAmount],
    [riskLevel], on both kinds of turn: the first of these keys that the slot
    mapping lacks is reported by a [KeyError], whatever the later keys and
    the invocation source, and the store is left as it was. *)
Theorem missing_slot_raises_key_error req σ pre k post :
  slot_names = (pre ++ k :: post)%list →
  (∀ k', k' ∈ pre → is_Some (σ (get_slots req) !! Some k')) →
  σ (get_slots req) !! Some k = None →
  recommend_portfolio req σ = (inl (KeyError (Some k)), σ).
Proof.
  intros Hnames Hpre Hk.
  unfold recommend_portfolio, mbind, M_bind, getitem.
  unfold slot_names in Hnames.
  destruct pre as [|k1 [|k2 [|k3 [|k4 pre]]]]; simplify_eq/=.
  - by rewrite Hk.
  - destruct (Hpre "firstName") as [? ->]; [set_solver|]. by rewrite Hk.
  - destruct (Hpre "firstName") as [? ->]; [set_solver|].
    destruct (Hpre "age") as [? ->]; [set_solver|]. by rewrite Hk.
  - destruct (Hpre "firstName") as [? ->]; [set_solver|].
    destruct (Hpre "age") as [? ->]; [set_solver|].
    destruct (Hpre "investmentAmount") as [? ->]; [set_solver|].
    by rewrite Hk.
  - by destruct pre.
Qed.

Lemma missing_slot_raises_key_error_witness :
  recommend_portfolio
    (sample_request "FulfillmentCodeHook" "recommendPortfolio")
    (sample_store (<[Some "firstName" := Some "Jo"]>
                     (<[Some "riskLevel" := Some "low"]> ∅)))
  = (inl (KeyError (Some "age")),
     sample_store (<[Some "firstName" := Some "Jo"]>
                     (<[Some "riskLevel" := Some "low"]> ∅))).
Proof.
  apply (missing_slot_raises_key_error _ _ ["firstName"] "age"
           ["investmentAmount"; "riskLevel"]).
  - reflexivity.
  - intros k' ->%list_elem_of_singleton. by eexists.
  - reflexivity.
Defined.

(** ** Fulfillment *)

(** X10: a fulfillment turn validates nothing: its response is fixed by the first
    name and the risk level alone, whatever the age and the amount hold, and
    it leaves the store as it was. *)
Theorem fulfillment_ignores_age_and_amount
    req σ1 σ2 fn risk age1 amt1 age2 amt2 :
  final_phase req →
  has_slots (σ1 (get_slots req)) fn age1 amt1 risk →
  has_slots (σ2 (get_slots req)) fn age2 amt2 risk →
  (recommend_portfolio req σ1).1 = (recommend_portfolio req σ2).1
  ∧ (recommend_portfolio req σ1).2 = σ1.
Proof.
  intros S H1 H2.
  rewrite (recommend_portfolio_final _ _ _ _ _ _ S H1).
  rewrite (recommend_portfolio_final _ _ _ _ _ _ S H2).
  by destruct (get_rec risk).
Qed.

Lemma fulfillment_ignores_age_and_amount_witness :
  (recommend_portfolio
     (sample_request "FulfillmentCodeHook" "recommendPortfolio")
     (sample_store (sample_slots (Some "Jo") (Some "70") (Some "1")
                      (Some "low")))).1
  = (recommend_portfolio
       (sample_request "FulfillmentCodeHook" "recommendPortfolio")
       (sample_store (sample_slots (Some "Jo") (Some "30") (Some "6000")
                        (Some "low")))).1
  ∧ (recommend_portfolio
       (sample_request "FulfillmentCodeHook" "recommendPortfolio")
       (sample_store (sample_slots (Some "Jo") (Some "70") (Some "1")
                        (Some "low")))).2
    = sample_store (sample_slots (Some "Jo") (Some "70") (Some "1")
                      (Some "low")).
Proof.
  apply (fulfillment_ignores_age_and_amount _ _ _ (Some "Jo") (Some "low")
           (Some "70") (Some "1") (Some "30") (Some "6000"));
    [done|by repeat split..].
Defined.

(** ** What the handler does to the store *)

(** X11: the store changes only on the way to an elicit response: with a delegate
    response, a close response or an exception it is the store the handler
    was given. *)
Theorem store_changes_only_on_elicit req σ res σ' :
  recommend_portfolio req σ = (res, σ') →
  (∀ r, res = inr r → is_elicit r = false) →
  σ' = σ.
Proof.
  intros Hrun Hne.
  destruct (recommend_portfolio_reads_or_fails req σ)
    as [(fn & age & amt & risk & Hs)|(k & _ & _ & E)]; [|congruence].
  destruct (phase_cases req) as [S|S].
  - rewrite (recommend_portfolio_intermediate _ _ _ _ _ _ S Hs) in Hrun.
    cbv zeta in Hrun.
    destruct (isValid (validate_data age amt risk req)) eqn:V;
      [congruence|].
    destruct (validate_data_invalid_shape _ _ _ _ V)
      as (f & msg & Hf & Hm & _).
    rewrite Hm in Hrun. injection Hrun as <- <-.
    by specialize (Hne _ eq_refl).
  - rewrite (recommend_portfolio_final _ _ _ _ _ _ S Hs) in Hrun.
    destruct (get_rec risk); congruence.
Qed.

Lemma store_changes_only_on_elicit_witness :
  sample_store (sample_slots None (Some "10") (Some "6000") (Some "low"))
  = sample_store (sample_slots None (Some "10") (Some "6000") (Some "low")).
Proof.
  apply (store_changes_only_on_elicit
           (sample_request "DialogCodeHook" "recommendPortfolio")
           (sample_store
              (sample_slots None (Some "10") (Some "6000") (Some "low")))
           (inr (mkResponse 2%positive (Delegate 1%positive)))).
  - reflexivity.
  - by intros r [= <-].
Defined.

(** X12: the handler never adds or removes a key of the slot mapping and never
    writes a value other than [None]: after any invocation, whatever its
    outcome, each key holds what it held, or holds [None] where one of the
    three validated slots was present before. *)
Theorem handler_only_clears_slots req σ res σ' k :
  recommend_portfolio req σ = (res, σ') →
  σ' (get_slots req) !! k = σ (get_slots req) !! k
  ∨ (σ' (get_slots req) !! k = Some None
     ∧ is_Some (σ (get_slots req) !! k)
     ∧ k ∈ [Some "age"; Some "investmentAmount"; Some "riskLevel"]).
Proof.
  intros Hrun.
  destruct (recommend_portfolio_reads_or_fails req σ)
    as [(fn & age & amt & risk & Hs)|(k' & _ & _ & E)];
    [|left; congruence].
  destruct (phase_cases req) as [S|S].
  - rewrite (recommend_portfolio_intermediate _ _ _ _ _ _ S Hs) in Hrun.
    cbv zeta in Hrun.
    destruct (isValid (validate_data age amt risk req)) eqn:V;
      [left; congruence|].
    destruct (validate_data_invalid_shape _ _ _ _ V)
      as (f & msg & Hf & Hm & Hin).
    rewrite Hf in Hrun. injection Hrun as _ <-.
    rewrite fn_lookup_insert.
    destruct (decide (k = Some f)) as [->|Hk].
    + right. rewrite lookup_insert_eq. split; [done|].
      destruct Hs as (_ & A & I & R).
      apply elem_of_cons in Hin as [->|Hin].
      { split; [by eexists|]. apply list_elem_of_here. }
      apply elem_of_cons in Hin as [->|Hin].
      { split; [by eexists|].
        apply list_elem_of_further, list_elem_of_here. }
      apply list_elem_of_singleton in Hin as ->.
      split; [by eexists|].
      apply list_elem_of_further, list_elem_of_further, list_elem_of_here.
    + left. by rewrite lookup_insert_ne.
  - rewrite (recommend_portfolio_final _ _ _ _ _ _ S Hs) in Hrun.
    left. destruct (get_rec risk); congruence.
Qed.

Lemma handler_only_clears_slots_witness :
  (<[1%positive := <[Some "age" := None]>
                     (sample_slots (Some "Jo") (Some "70") None None)]>
     (sample_store (sample_slots (Some "Jo") (Some "70") None None)))
    1%positive !! Some "firstName"
  = sample_store (sample_slots (Some "Jo") (Some "70") None None)
      1%positive !! Some "firstName"
  ∨ ((<[1%positive := <[Some "age" := None]>
                        (sample_slots (Some "Jo") (Some "70") None None)]>
        (sample_store (sample_slots (Some "Jo") (Some "70") None None)))
       1%positive !! Some "firstName" = Some None
     ∧ is_Some (sample_store (sample_slots (Some "Jo") (Some "70") None None)
                  1%positive !! Some "firstName")
     ∧ Some "firstName"
       ∈ [Some "age"; Some "investmentAmount"; Some "riskLevel"]).
Proof.
  apply (handler_only_clears_slots
           (sample_request "DialogCodeHook" "recommendPortfolio")
           (sample_store (sample_slots (Some "Jo") (Some "70") None None))
           (inr (mkResponse 2%positive
                   (ElicitSlot "recommendPortfolio" 1%positive (Some "age")
                      (mkMessage "PlainText" age_message))))).
  reflexivity.
Defined.

(** ** Absent slots and repeated turns *)

(** X13: a slot that holds [None] is never the one an elicit response asks for:
    its check is skipped. *)
Theorem absent_slot_is_never_elicited req σ r σ' f nm sl msg :
  σ (get_slots req) !! Some f = Some None →
  recommend_portfolio req σ = (inr r, σ') →
  dialogAction r ≠ ElicitSlot nm sl (Some f) msg.
Proof.
  intros Hf Hrun.
  destruct (recommend_portfolio_returns_reads _ _ _ _ Hrun)
    as (fn & age & amt & risk & Hs).
  destruct (phase_cases req) as [S|S].
  - rewrite (recommend_portfolio_intermediate _ _ _ _ _ _ S Hs) in Hrun.
    cbv zeta in Hrun. destruct Hs as (_ & A & I & R).
    rewrite validate_data_checks in Hrun.
    destruct (age_fails age) eqn:EA.
    { injection Hrun as <- <-. cbn. intros [= _ _ <- _].
      rewrite Hf in A. by simplify_eq. }
    destruct (investment_fails amt) eqn:EI.
    { injection Hrun as <- <-. cbn. intros [= _ _ <- _].
      rewrite Hf in I. by simplify_eq. }
    destruct (risk_fails risk) eqn:ER.
    { injection Hrun as <- <-. cbn. intros [= _ _ <- _].
      rewrite Hf in R. by simplify_eq. }
    by injection Hrun as <- <-.
  - rewrite (recommend_portfolio_final _ _ _ _ _ _ S Hs) in Hrun.
    destruct (get_rec risk); simplify_eq. done.
Qed.

Lemma absent_slot_is_never_elicited_witness :
  dialogAction
    (mkResponse 2%positive
       (ElicitSlot "recommendPortfolio" 1%positive (Some "riskLevel")
          (mkMessage "PlainText" risk_message)))
  ≠ ElicitSlot "recommendPortfolio" 1%positive (Some "age")
      (mkMessage "PlainText" age_message).
Proof.
  apply (absent_slot_is_never_elicited
           (sample_request "DialogCodeHook" "recommendPortfolio")
           (sample_store (sample_slots None None None (Some "extreme")))
           _
           (<[1%positive := <[Some "riskLevel" := None]>
                              (sample_slots None None None (Some "extreme"))]>
              (sample_store (sample_slots None None None (Some "extreme"))))).
  - reflexivity.
  - reflexivity.
Defined.

Lemma failing_fields_bound age amt risk :
  (failing_fields age amt risk ≤ 3)%nat.
Proof.
  unfold failing_fields.
  destruct (age_fails age), (investment_fails amt), (risk_fails risk);
    cbn; lia.
Qed.

(** One intermediate turn: the four keys stay, one failing field less is
    left, and with no failing field the turn delegates. *)
Lemma intermediate_turn_step req σ fn age amt risk :
  intermediate_phase req →
  has_slots (σ (get_slots req)) fn age amt risk →
  ∃ age' amt' risk',
    has_slots ((recommend_portfolio req σ).2 (get_slots req))
      fn age' amt' risk'
    ∧ failing_fields age' amt' risk'
      = Nat.pred (failing_fields age amt risk)
    ∧ (failing_fields age amt risk = 0%nat →
       (recommend_portfolio req σ).1
       = inr (delegate (sessionAttributes req) (get_slots req))).
Proof.
  intros S Hs. rewrite (recommend_portfolio_intermediate _ _ _ _ _ _ S Hs).
  cbv zeta. rewrite validate_data_checks. unfold failing_fields.
  destruct Hs as (F & A & I & R).
  destruct (age_fails age) eqn:EA.
  { exists None, amt, risk. cbn [fst snd isValid violatedSlot age_verdict].
    rewrite fn_lookup_insert. split; [|split; [done|cbn; lia]].
    repeat split; by rewrite ?lookup_insert_eq, ?lookup_insert_ne. }
  destruct (investment_fails amt) eqn:EI.
  { exists age, None, risk.
    cbn [fst snd isValid violatedSlot investment_verdict].
    rewrite fn_lookup_insert, EA. split; [|split; [done|cbn; lia]].
    repeat split; by rewrite ?lookup_insert_eq, ?lookup_insert_ne. }
  destruct (risk_fails risk) eqn:ER.
  { exists age, amt, None.
    cbn [fst snd isValid violatedSlot risk_verdict].
    rewrite fn_lookup_insert, EA, EI. split; [|split; [done|cbn; lia]].
    repeat split; by rewrite ?lookup_insert_eq, ?lookup_insert_ne. }
  exists age, amt, risk. cbn [fst snd isValid valid_verdict].
  by rewrite EA, EI, ER.
Qed.

Lemma replay_delegates req n :
  intermediate_phase req →
  ∀ σ fn age amt risk,
    has_slots (σ (get_slots req)) fn age amt risk →
    (failing_fields age amt risk ≤ n)%nat →
    (replay n req σ).1
    = inr (delegate (sessionAttributes req) (get_slots req)).
Proof.
  intros S. induction n as [|n IH]; intros σ fn age amt risk Hs Hn.
  - destruct (intermediate_turn_step _ _ _ _ _ _ S Hs)
      as (_ & _ & _ & _ & _ & Hd).
    apply Hd. lia.
  - destruct (intermediate_turn_step _ _ _ _ _ _ S Hs)
      as (age' & amt' & risk' & Hs' & Hf & _).
    cbn [replay]. apply (IH _ _ _ _ _ Hs'). lia.
Qed.

(** X14: elicitation cannot go on by itself: when the handler is invoked again and
    again on the same intermediate request, each time on the store the
    previous turn left, the fourth invocation and every later one delegate.
    Every elicit response clears the slot it names, at most three slots can
    fail, and a cleared slot is not checked again. *)
Theorem fourth_turn_delegates req σ fn age amt risk n :
  intermediate_phase req →
  has_slots (σ (get_slots req)) fn age amt risk →
  (3 ≤ n)%nat →
  (replay n req σ).1 = inr (delegate (sessionAttributes req) (get_slots req)).
Proof.
  intros S Hs Hn. apply (replay_delegates _ _ S _ _ _ _ _ Hs).
  pose proof (failing_fields_bound age amt risk). lia.
Qed.

Lemma fourth_turn_delegates_witness :
  (replay 3 (sample_request "DialogCodeHook" "recommendPortfolio")
     (sample_store
        (sample_slots (Some "Jo") (Some "70") (Some "1") (Some "extreme")))).1
  = inr (delegate 2%positive 1%positive).
Proof.
  apply (fourth_turn_delegates
           (sample_request "DialogCodeHook" "recommendPortfolio")
           _ (Some "Jo") (Some "70") (Some "1") (Some "extreme"));
    [done|by repeat split|lia].
Defined.

Example third_turn_may_still_elicit :
  (replay 2 (sample_request "DialogCodeHook" "recommendPortfolio")
     (sample_store
        (sample_slots (Some "Jo") (Some "70") (Some "1") (Some "extreme")))).1
  = inr (mkResponse 2%positive
           (ElicitSlot "recommendPortfolio" 1%positive (Some "riskLevel")
              (mkMessage "PlainText" risk_message))).
Proof. reflexivity. Qed.

(** ** The exceptions of the entry point *)

(** X15: [lambda_handler] raises in three situations only, and always leaves the
    store as it was: the intent is not ["recommendPortfolio"]; one of the
    four slot keys is missing from the slot mapping ([KeyError] on it); or
    the turn is a fulfillment turn and the risk level is [None]
    ([AttributeError]).  In particular the [ValueError] of [int] never
    escapes, and an intermediate turn that can read its slots never
    raises. *)
Theorem lambda_handler_exceptions {Context : Type}
    event (context : Context) σ e σ' :
  lambda_handler event context σ = (inl e, σ') →
  σ' = σ
  ∧ ((name (currentIntent event) ≠ "recommendPortfolio"
      ∧ e = Exception ("Intent with name " +:+ name (currentIntent event)
                        +:+ " not supported"))
     ∨ (name (currentIntent event) = "recommendPortfolio"
        ∧ ∃ k, k ∈ slot_names
               ∧ σ (get_slots event) !! Some k = None
               ∧ e = KeyError (Some k))
     ∨ (name (currentIntent event) = "recommendPortfolio"
        ∧ final_phase event
        ∧ σ (get_slots event) !! Some "riskLevel" = Some None
        ∧ e = AttributeError "'NoneType' object has no attribute 'lower'")).
Proof.
  unfold lambda_handler, dispatch. case_bool_decide as Hname.
  - intros Hrun.
    destruct (recommend_portfolio_reads_or_fails event σ)
      as [(fn & age & amt & risk & Hs)|(k & Hk & Hnone & E)].
    + destruct (phase_cases event) as [S|S].
      * rewrite (recommend_portfolio_intermediate _ _ _ _ _ _ S Hs) in Hrun.
        cbv zeta in Hrun.
        destruct (isValid (validate_data age amt risk event)) eqn:V;
          [done|].
        destruct (validate_data_invalid_shape _ _ _ _ V)
          as (f & msg & _ & Hm & _).
        by rewrite Hm in Hrun.
      * rewrite (recommend_portfolio_final _ _ _ _ _ _ S Hs) in Hrun.
        destruct risk as [r|]; [done|]. cbn in Hrun.
        injection Hrun as <- <-. split; [done|]. right; right.
        by destruct Hs as (_ & _ & _ & R).
    + rewrite E in Hrun. injection Hrun as <- <-. split; [done|].
      right; left. split; [done|]. by exists k.
  - unfold raise. intros [= <- <-]. split; [done|]. by left.
Qed.

Lemma lambda_handler_exceptions_witness :
  sample_store (sample_slots (Some "Jo") None None None)
  = sample_store (sample_slots (Some "Jo") None None None)
  ∧ (("recommendPortfolio" ≠ "recommendPortfolio"
      ∧ AttributeError "'NoneType' object has no attribute 'lower'"
        = Exception ("Intent with name " +:+ "recommendPortfolio"
                     +:+ " not supported"))
     ∨ ("recommendPortfolio" = "recommendPortfolio"
        ∧ ∃ k, k ∈ slot_names
               ∧ sample_store (sample_slots (Some "Jo") None None None)
                   1%positive !! Some k = None
               ∧ AttributeError "'NoneType' object has no attribute 'lower'"
                 = KeyError (Some k))
     ∨ ("recommendPortfolio" = "recommendPortfolio"
        ∧ final_phase
            (sample_request "FulfillmentCodeHook" "recommendPortfolio")
        ∧ sample_store (sample_slots (Some "Jo") None None None)
            1%positive !! Some "riskLevel" = Some None
        ∧ AttributeError "'NoneType' object has no attribute 'lower'"
          = AttributeError "'NoneType' object has no attribute 'lower'")).
Proof.
  apply (lambda_handler_exceptions
           (sample_request "FulfillmentCodeHook" "recommendPortfolio") tt
           (sample_store (sample_slots (Some "Jo") None None None))).
  reflexivity.
Defined.
